(** * The pseudo-random character device of kernel/random.c

    A shallow embedding of the driver (the LFSR step [lfsr_char], the
    device handlers [randomread] and [randomwrite], and [randominit]),
    followed by the properties of the driver that its specification states. *)

From Stdlib Require Import ZArith Lia Bool.
From stdpp Require Import base list strings gmap.

Local Open Scope Z_scope.

(** ** Machine integers *)

(** Conversion of a C [int] value to [uint8] (assignment to a [uint8]
    object keeps the low eight bits). *)
Definition to_uint8 (z : Z) : Z := z mod 256.

(** Conversion of a [uint64] value to [int] (what a 64-bit argument becomes
    when it is passed for an [int] parameter): the low 32 bits, read as a
    two's complement number. *)
Definition to_int (z : Z) : Z := (z + 2 ^ 31) mod 2 ^ 32 - 2 ^ 31.

Definition is_uint8 (z : Z) : Prop := 0 <= z < 256.

(** ** The LFSR step *)

(** [uint8 lfsr_char(uint8 lfsr)]: the operands are promoted to [int], the
    two assignments to [uint8] objects truncate. *)
Definition lfsr_char (lfsr : Z) : Z :=
  let bit :=
    to_uint8
      (Z.land
         (Z.lxor
            (Z.lxor (Z.lxor (Z.shiftr lfsr 0) (Z.shiftr lfsr 2))
                    (Z.shiftr lfsr 3))
            (Z.shiftr lfsr 4))
         1) in
  let lfsr := to_uint8 (Z.lor (Z.shiftr lfsr 1) (Z.shiftl bit 7)) in
  lfsr.

(** The feedback bit in the words of the specification: the exclusive-or of
    bits 0, 2, 3 and 4 of the state. *)
Definition feedback (s : Z) : bool :=
  xorb (xorb (xorb (Z.testbit s 0) (Z.testbit s 2)) (Z.testbit s 3))
       (Z.testbit s 4).

(** The step in the words of the specification: the state shifted right by
    one, with the feedback bit as bit 7. *)
Definition lfsr_spec (s : Z) : Z := Z.shiftr s 1 + 128 * Z.b2z (feedback s).

(** [k] successive steps. *)
Fixpoint lfsr_iter (k : nat) (s : Z) : Z :=
  match k with
  | O => s
  | S k' => lfsr_iter k' (lfsr_char s)
  end.

(** The bytes emitted by [k] successive steps from state [s]. *)
Fixpoint lfsr_stream (k : nat) (s : Z) : list Z :=
  match k with
  | O => []
  | S k' => lfsr_char s :: lfsr_stream k' (lfsr_char s)
  end.

(** ** The kernel the driver runs in *)

(** What the driver asks of the rest of the kernel is kept as a log, in the
    order of the calls. A copy event records the arguments of the call and
    the status that the primitive returned. *)
Inductive event : Type :=
| EvInitlock (name : string)
| EvAcquire
| EvRelease
| EvCopyout (user_dst dst byte status : Z)
| EvCopyin (user_src src status : Z).

(** The kernel functions a [devsw] slot can point to. *)
Inductive fnptr : Type :=
| FnRandomread
| FnRandomwrite
| FnOther (name : string).

(** [struct devsw]: a pair of handler pointers, [None] for a null pointer. *)
Record devsw_entry : Type := mk_devsw {
  dev_read : option fnptr;
  dev_write : option fnptr
}.

(** The collaborators that kernel/random.c uses and does not define: the
    index [RANDOM] of the device in [devsw], and the two checked copy
    primitives. The driver only ever moves one byte per call, so both are
    taken at [len = 1]:
    - [either_copyout user_dst dst b w] copies the byte [b] to address [dst]
      (a user address when [user_dst] is non-zero, a kernel address
      otherwise) and returns its status with the memory after the call;
    - [either_copyin user_src src w] reads one byte at address [src] and
      returns its status with the byte it stored at the destination, if it
      stored one.
    [None] stands for a call that does not return (a kernel fault). *)
Class Kernel (World : Type) : Type := {
  RANDOM : nat;
  either_copyout : Z -> Z -> Z -> World -> option (Z * World);
  either_copyin : Z -> Z -> World -> option (Z * option Z)
}.

(** The state the driver works on: [rand.seed], the [devsw] table, the
    memory behind the copy primitives and the log of calls. *)
Record kstate (World : Type) : Type := mk_kstate {
  rand_seed : Z;
  devsw : list devsw_entry;
  world : World;
  trace : list event
}.

Arguments mk_kstate {World} _ _ _ _.
Arguments rand_seed {World} _.
Arguments devsw {World} _.
Arguments world {World} _.
Arguments trace {World} _.

(** Number of one-byte copies to the destination that a log holds, and
    number of those that did not report [-1]. *)
Fixpoint copyouts (t : list event) : nat :=
  match t with
  | [] => O
  | EvCopyout _ _ _ _ :: t' => S (copyouts t')
  | _ :: t' => copyouts t'
  end.

Fixpoint copyouts_ok (t : list event) : nat :=
  match t with
  | [] => O
  | EvCopyout _ _ _ st :: t' =>
      if decide (st = -1) then copyouts_ok t' else S (copyouts_ok t')
  | _ :: t' => copyouts_ok t'
  end.

(** Kernel code: a computation on the state that returns a value, or does
    not return. *)
Definition K (World A : Type) : Type := kstate World -> option (A * kstate World).

#[global] Instance kret {World : Type} : MRet (K World) :=
  fun A (a : A) s => Some (a, s).

#[global] Instance kbind {World : Type} : MBind (K World) :=
  fun A B (f : A -> K World B) (m : K World A) s =>
    match m s with
    | Some (a, s') => f a s'
    | None => None
    end.

Section Driver.
Context {World : Type} `{!Kernel World}.

Definition log (e : event) : K World unit :=
  fun s => Some (tt, mk_kstate (rand_seed s) (devsw s) (world s) (trace s ++ [e])).

(** [initlock], [acquire] and [release] on [rand.lock]. *)
Definition initlock (name : string) : K World unit := log (EvInitlock name).
Definition acquire : K World unit := log EvAcquire.
Definition release : K World unit := log EvRelease.

Definition get_seed : K World Z := fun s => Some (rand_seed s, s).

Definition set_seed (v : Z) : K World unit :=
  fun s => Some (tt, mk_kstate (to_uint8 v) (devsw s) (world s) (trace s)).

(** [either_copyout(user_dst, dst, &rand.seed, 1)]. *)
Definition copyout_seed (user_dst dst : Z) : K World Z :=
  fun s =>
    match either_copyout user_dst dst (rand_seed s) (world s) with
    | Some (st, w') =>
        Some (st, mk_kstate (rand_seed s) (devsw s) w'
                    (trace s ++ [EvCopyout user_dst dst (rand_seed s) st]))
    | None => None
    end.

(** [either_copyin(&rand.seed, user_src, src, 1)]. *)
Definition copyin_seed (user_src src : Z) : K World Z :=
  fun s =>
    match either_copyin user_src src (world s) with
    | Some (st, stored) =>
        Some (st, mk_kstate (from_option to_uint8 (rand_seed s) stored)
                    (devsw s) (world s)
                    (trace s ++ [EvCopyin user_src src st]))
    | None => None
    end.

(** [devsw[i].read = f] and [devsw[i].write = f]; an index outside the
    table is undefined behaviour, on which the model does not return. *)
Definition set_devsw_read (i : nat) (f : fnptr) : K World unit :=
  fun s =>
    match devsw s !! i with
    | Some e =>
        Some (tt, mk_kstate (rand_seed s)
                    (<[i := mk_devsw (Some f) (dev_write e)]> (devsw s))
                    (world s) (trace s))
    | None => None
    end.

Definition set_devsw_write (i : nat) (f : fnptr) : K World unit :=
  fun s =>
    match devsw s !! i with
    | Some e =>
        Some (tt, mk_kstate (rand_seed s)
                    (<[i := mk_devsw (dev_read e) (Some f)]> (devsw s))
                    (world s) (trace s))
    | None => None
    end.

(** ** The device handlers *)

(** The [for] loop of [randomread], entered with the loop variable at [i].
    [fuel] bounds the number of iterations; [randomread] runs it with 8,
    which the clamp of [n] makes enough ([randomread_loop_fuel]). *)
Fixpoint randomread_loop (fuel : nat) (fd dst n i : Z) : K World Z :=
  match fuel with
  | O => mret i
  | S fuel' =>
      if decide (i < n) then
        seed ← get_seed;
        let lfsrRet := lfsr_char seed in
        set_seed lfsrRet;;
        r ← copyout_seed fd dst;
        if decide (r = -1) then mret i
        else randomread_loop fuel' fd dst n (i + 1)
      else mret i
  end.

(** [int randomread(int fd, uint64 dst, int n)]. *)
Definition randomread (fd dst n : Z) : K World Z :=
  acquire;;
  let n := if decide (n > 8) then 8 else n in
  i ← randomread_loop 8 fd dst n 0;
  release;;
  mret i.

(** [int randomwrite(int fd, uint64 src, int n)]. The second argument of
    [either_copyin] is an [int]: the call passes [src] there, converted. *)
Definition randomwrite (fd src n : Z) : K World Z :=
  if decide (n <> 1) then mret (-1)
  else
    let ret := 1 in
    acquire;;
    ret ← copyin_seed (to_int src) src;
    release;;
    mret ret.

(** [void randominit(void)]. *)
Definition randominit : K World unit :=
  initlock "rand";;
  set_devsw_read RANDOM FnRandomread;;
  set_devsw_write RANDOM FnRandomwrite;;
  set_seed 42.

(** The function behind a handler pointer, for the two that this file
    defines. *)
Definition fnptr_target (f : fnptr) : option (Z -> Z -> Z -> K World Z) :=
  match f with
  | FnRandomread => Some randomread
  | FnRandomwrite => Some randomwrite
  | FnOther _ => None
  end.

(** The statuses and the memory that result from copying the bytes [bs]
    out one after the other, each with the call
    [either_copyout user_dst dst b]. *)
Fixpoint copyout_each (user_dst dst : Z) (bs : list Z) (w : World)
  : option (list Z * World) :=
  match bs with
  | [] => Some ([], w)
  | b :: bs' =>
      match either_copyout user_dst dst b w with
      | Some (st, w') =>
          match copyout_each user_dst dst bs' w' with
          | Some (sts, w'') => Some (st :: sts, w'')
          | None => None
          end
      | None => None
      end
  end.

(** The log entries of those calls. *)
Fixpoint copyout_events (user_dst dst : Z) (bs sts : list Z) : list event :=
  match bs, sts with
  | b :: bs', st :: sts' =>
      EvCopyout user_dst dst b st :: copyout_events user_dst dst bs' sts'
  | _, _ => []
  end.

End Driver.

(** ** The copy primitives of the kernel *)

Module Xv6.

(** Modelled from the spec: the memory that the checked copy primitives
    work on. kernel/random.c only calls them; the specification describes
    them as moving bytes "between kernel memory and a caller-specified
    address, validating the address and reporting failure instead of
    faulting the kernel", with a trusted kernel buffer and an untrusted
    user buffer as the two kinds of address. [user] holds the bytes of the
    mapped user addresses of the calling process, [kern] the bytes of the
    mapped kernel addresses. *)
Record memory : Type := mk_memory {
  user : gmap Z Z;
  kern : gmap Z Z
}.

(** Modelled from the spec: [either_copyout] at [len = 1]. A user
    destination is validated, and the failure is reported as [-1], the
    value [randomread] tests for; success is reported as [0]. A kernel
    destination is written without a check, which faults on an address
    that is not mapped. *)
Definition copyout (user_dst dst b : Z) (m : memory) : option (Z * memory) :=
  if decide (user_dst <> 0) then
    match user m !! dst with
    | Some _ => Some (0, mk_memory (<[dst := b]> (user m)) (kern m))
    | None => Some (-1, m)
    end
  else
    match kern m !! dst with
    | Some _ => Some (0, mk_memory (user m) (<[dst := b]> (kern m)))
    | None => None
    end.

(** Modelled from the spec: [either_copyin] at [len = 1], with the same
    statuses. A user source is validated and nothing is stored when it is
    not mapped; a kernel source is read without a check. *)
Definition copyin (user_src src : Z) (m : memory) : option (Z * option Z) :=
  if decide (user_src <> 0) then
    match user m !! src with
    | Some b => Some (0, Some b)
    | None => Some (-1, None)
    end
  else
    match kern m !! src with
    | Some b => Some (0, Some b)
    | None => None
    end.


(** Modelled from the spec: the device table, "a fixed-size table mapping
    device identifiers to handler pairs", here of [NDEV] empty slots, and
    the slot of this device. *)
Definition NDEV : nat := 10.

Definition devsw0 : list devsw_entry := replicate NDEV (mk_devsw None None).

#[global] Instance kernel : Kernel memory := {|
  RANDOM := 2;
  either_copyout := copyout;
  either_copyin := copyin
|}.

(** The kernel before [randominit]: [rand] is a zero-initialised global. *)
Definition boot (m : memory) : kstate memory := mk_kstate 0 devsw0 m [].

(** The kernel with seed [seed], after [randominit]. *)
Definition seeded (seed : Z) (m : memory) : kstate memory :=
  mk_kstate seed
    (<[2%nat := mk_devsw (Some FnRandomread) (Some FnRandomwrite)]> devsw0)
    m [EvInitlock "rand"].

(** A process whose only mapped bytes are the [len] zero bytes from
    address [base] on; no kernel address is involved. *)
Definition user_zeros (base : Z) (len : nat) : memory :=
  mk_memory
    (list_to_map (map (fun k => (base + Z.of_nat k, 0)) (seq 0 len)))
    ∅.

(** A process with the single byte [b] mapped at user address [a]. *)
Definition user_byte (a b : Z) : memory := mk_memory {[ a := b ]} ∅.

End Xv6.

(** ** Auxiliary definitions for the further properties *)

(** The 256 values of a [uint8]. *)
Definition bytes : list Z := map Z.of_nat (seq 0 256).

(** The step of [lfsr_char] backwards: the state shifted left by one within
    eight bits, with bit 0 recovered from bit 7 and the bits that bits 2, 3
    and 4 of the earlier state have become. *)
Definition lfsr_prev (t : Z) : Z :=
  let bit :=
    Z.land
      (Z.lxor (Z.lxor (Z.lxor (Z.shiftr t 7) (Z.shiftr t 1)) (Z.shiftr t 2))
              (Z.shiftr t 3))
      1 in
  to_uint8 (Z.lor (Z.shiftl t 1) bit).

(** The first [k <= fuel] with [lfsr_iter k s = t], searching from [s]. *)
Fixpoint lfsr_find (fuel : nat) (s t : Z) : option nat :=
  if Z.eqb s t then Some O
  else
    match fuel with
    | O => None
    | S fuel' => S <$> lfsr_find fuel' (lfsr_char s) t
    end.

(** The number of bytes a call of [randomread] with length [n] asks for:
    [n] clamped to 8, and none for a length that is not positive. *)
Definition read_len (n : Z) : nat := Z.to_nat (Z.min n 8).

(** Whether a log of calls respects [rand.lock], started with the lock held
    or not: no acquire while it is held, no release while it is not, every
    copy while it is held. The result is whether the lock is held at the
    end. *)
Fixpoint lock_run (held : bool) (t : list event) : option bool :=
  match t with
  | [] => Some held
  | EvInitlock _ :: t' => if held then None else lock_run false t'
  | EvAcquire :: t' => if held then None else lock_run true t'
  | EvRelease :: t' => if held then lock_run false t' else None
  | EvCopyout _ _ _ _ :: t' => if held then lock_run true t' else None
  | EvCopyin _ _ _ :: t' => if held then lock_run true t' else None
  end.

(** ** Properties of the LFSR step *)

Lemma to_uint8_range z : is_uint8 (to_uint8 z).
Proof. unfold is_uint8, to_uint8. apply Z.mod_pos_bound. lia. Qed.

Lemma to_uint8_small z : is_uint8 z -> to_uint8 z = z.
Proof. unfold is_uint8, to_uint8. intros H. apply Z.mod_small. lia. Qed.

Lemma lfsr_char_range s : is_uint8 (lfsr_char s).
Proof. apply to_uint8_range. Qed.

Lemma lfsr_iter_range k s : is_uint8 s -> is_uint8 (lfsr_iter k s).
Proof.
  revert s. induction k as [|k IH]; intros s Hs; simpl; [exact Hs|].
  apply IH, lfsr_char_range.
Qed.

Lemma lfsr_iter_snoc k s : lfsr_iter (S k) s = lfsr_char (lfsr_iter k s).
Proof.
  revert s. induction k as [|k IH]; intros s; [reflexivity|].
  change (lfsr_iter (S (S k)) s) with (lfsr_iter (S k) (lfsr_char s)).
  rewrite IH. reflexivity.
Qed.

(** The feedback bit as the code computes it. *)
Lemma feedback_bit s :
  Z.land
    (Z.lxor
       (Z.lxor (Z.lxor (Z.shiftr s 0) (Z.shiftr s 2)) (Z.shiftr s 3))
       (Z.shiftr s 4))
    1 = Z.b2z (feedback s).
Proof.
  change 1 with (Z.ones 1). rewrite Z.land_ones by lia.
  change (2 ^ 1) with 2. rewrite <- Z.bit0_mod.
  rewrite !Z.lxor_spec, !Z.shiftr_spec by lia.
  reflexivity.
Qed.

Lemma lfsr_char_bits s :
  is_uint8 s ->
  lfsr_char s = Z.lor (Z.shiftr s 1) (Z.shiftl (Z.b2z (feedback s)) 7).
Proof.
  intros Hs. unfold lfsr_char. rewrite feedback_bit.
  rewrite (to_uint8_small (Z.b2z _)) by (unfold is_uint8; destruct (feedback s); simpl; lia).
  apply to_uint8_small. unfold is_uint8 in *.
  rewrite Z.shiftr_div_pow2 by lia. change (2 ^ 1) with 2.
  assert (Hq : 0 <= s / 2 < 128) by (split; [apply Z.div_pos; lia | apply Z.div_lt_upper_bound; lia]).
  destruct (feedback s); simpl Z.b2z.
  - change (Z.shiftl 1 7) with 128.
    rewrite <- Z.add_nocarry_lor.
    + lia.
    + apply Z.bits_inj'. intros i Hi. rewrite Z.land_spec, Z.bits_0.
      destruct (Z.eq_dec i 7) as [->|Hne].
      * replace (Z.testbit (s / 2) 7) with false; [reflexivity|].
        symmetry. apply Z.bits_above_log2; [lia|].
        destruct (Z.eq_dec (s / 2) 0) as [->|Hnz]; [simpl; lia|].
        apply Z.log2_lt_pow2; lia.
      * change 128 with (2 ^ 7). rewrite (Z.pow2_bits_false 7 i) by lia.
        apply andb_false_r.
  - change (Z.shiftl 0 7) with 0. rewrite Z.lor_0_r. lia.
Qed.

(** C1. For every 8-bit state [s], [lfsr_char s] is [s] shifted right by
    one bit with the feedback bit, the exclusive-or of bits 0, 2, 3 and 4 of
    [s], inserted as bit 7: bit [i] of the result is bit [i + 1] of [s] for
    [i < 7], bit 7 is the feedback bit, and nothing lies above bit 7. *)
Theorem lfsr_char_shift_feedback (s : Z) :
  is_uint8 s ->
  lfsr_char s = lfsr_spec s /\
  is_uint8 (lfsr_char s) /\
  (forall i, 0 <= i < 7 -> Z.testbit (lfsr_char s) i = Z.testbit s (i + 1)) /\
  Z.testbit (lfsr_char s) 7 = feedback s.
Proof.
  intros Hs. pose proof (lfsr_char_bits s Hs) as Hb.
  assert (Hhi : forall i, 7 <= i -> Z.testbit s (i + 1) = false).
  { intros i Hi. unfold is_uint8 in Hs.
    destruct (Z.eq_dec s 0) as [->|Hnz]; [apply Z.bits_0|].
    apply Z.bits_above_log2; [lia|].
    assert (Z.log2 s < 8) by (apply Z.log2_lt_pow2; lia). lia. }
  repeat split.
  - rewrite Hb. unfold lfsr_spec.
    rewrite <- Z.add_nocarry_lor.
    + f_equal. rewrite Z.shiftl_mul_pow2 by lia. change (2 ^ 7) with 128. lia.
    + apply Z.bits_inj'. intros i Hi.
      rewrite Z.land_spec, Z.bits_0, Z.shiftr_spec, Z.shiftl_spec by lia.
      destruct (Z_lt_le_dec i 7) as [Hlt|Hge].
      * rewrite (Z.testbit_neg_r _ (i - 7)) by lia. apply andb_false_r.
      * rewrite Hhi by lia. reflexivity.
  - apply lfsr_char_range.
  - apply lfsr_char_range.
  - intros i Hi. rewrite Hb, Z.lor_spec, Z.shiftr_spec, Z.shiftl_spec by lia.
    rewrite (Z.testbit_neg_r _ (i - 7)) by lia. apply orb_false_r.
  - rewrite Hb, Z.lor_spec, Z.shiftr_spec, Z.shiftl_spec by lia.
    rewrite (Hhi 7) by lia. change (7 - 7) with 0. simpl orb.
    destruct (feedback s); reflexivity.
Qed.

Lemma lfsr_char_shift_feedback_witness :
  is_uint8 42 /\
  (lfsr_char 42 = lfsr_spec 42 /\
   is_uint8 (lfsr_char 42) /\
   (forall i, 0 <= i < 7 -> Z.testbit (lfsr_char 42) i = Z.testbit 42 (i + 1)) /\
   Z.testbit (lfsr_char 42) 7 = feedback 42).
Proof.
  split; [unfold is_uint8; lia|].
  apply (lfsr_char_shift_feedback 42). unfold is_uint8. lia.
Defined.

Example lfsr_char_0x2A : lfsr_char 42 = 149.
Proof. reflexivity. Qed.

(** C9. The all-zero state is a fixed point of the step, so from state 0
    every later state, and every emitted byte, is 0. *)
Theorem lfsr_char_zero_fixed :
  lfsr_char 0 = 0 /\
  (forall k, lfsr_iter k 0 = 0) /\
  (forall k, lfsr_stream k 0 = repeat 0 k).
Proof.
  assert (H0 : lfsr_char 0 = 0) by reflexivity.
  split; [exact H0|]. split.
  - induction k as [|k IH]; simpl; [reflexivity|]. rewrite H0. exact IH.
  - induction k as [|k IH]; simpl; [reflexivity|]. rewrite H0, IH. reflexivity.
Qed.

(** ** Properties of the device handlers, for any kernel *)

Lemma copyouts_app t1 t2 : copyouts (t1 ++ t2) = (copyouts t1 + copyouts t2)%nat.
Proof.
  induction t1 as [|e t1 IH]; [reflexivity|].
  destruct e; simpl; rewrite IH; reflexivity.
Qed.

Lemma copyouts_ok_app t1 t2 :
  copyouts_ok (t1 ++ t2) = (copyouts_ok t1 + copyouts_ok t2)%nat.
Proof.
  induction t1 as [|e t1 IH]; [reflexivity|].
  destruct e; simpl; rewrite IH; try reflexivity.
  destruct (decide (status = -1)); reflexivity.
Qed.

Section DriverProperties.
Context {World : Type} `{!Kernel World}.

Implicit Types (s : kstate World) (w : World).

Lemma set_seed_lfsr_char x s :
  set_seed (lfsr_char x) s
  = Some (tt, mk_kstate (lfsr_char x) (devsw s) (world s) (trace s)).
Proof.
  unfold set_seed. rewrite to_uint8_small by apply lfsr_char_range. reflexivity.
Qed.

(** One iteration of the loop of [randomread]: the seed is stepped and
    stored first, and the stored seed is what the copy is given. *)
Lemma randomread_loop_step fuel fd dst n i s :
  i < n ->
  randomread_loop (S fuel) fd dst n i s
  = match either_copyout fd dst (lfsr_char (rand_seed s)) (world s) with
    | Some (st, w') =>
        let s' := mk_kstate (lfsr_char (rand_seed s)) (devsw s) w'
                    (trace s ++ [EvCopyout fd dst (lfsr_char (rand_seed s)) st]) in
        if decide (st = -1) then Some (i, s')
        else randomread_loop fuel fd dst n (i + 1) s'
    | None => None
    end.
Proof.
  intros Hi. simpl. destruct (decide (i < n)) as [_|Hn]; [|lia].
  unfold mbind, kbind, get_seed. rewrite set_seed_lfsr_char.
  unfold copyout_seed. simpl.
  destruct (either_copyout fd dst (lfsr_char (rand_seed s)) (world s))
    as [[st w']|]; [|reflexivity].
  destruct (decide (st = -1)); reflexivity.
Qed.

Lemma randomread_loop_done fuel fd dst n i s :
  n <= i -> randomread_loop fuel fd dst n i s = Some (i, s).
Proof.
  intros Hi. destruct fuel as [|fuel]; [reflexivity|].
  simpl. destruct (decide (i < n)); [lia | reflexivity].
Qed.

(** The fuel of the model does not cut the loop short: once it covers the
    [n - i] iterations that are left, more of it changes nothing. *)
Lemma randomread_loop_fuel fuel fd dst n i s :
  n - i <= Z.of_nat fuel ->
  randomread_loop (S fuel) fd dst n i s = randomread_loop fuel fd dst n i s.
Proof.
  revert i s. induction fuel as [|fuel IH]; intros i s Hf.
  - rewrite !randomread_loop_done by lia. reflexivity.
  - destruct (Z_lt_le_dec i n) as [Hlt|Hge].
    + rewrite (randomread_loop_step (S fuel)), (randomread_loop_step fuel) by lia.
      destruct (either_copyout fd dst (lfsr_char (rand_seed s)) (world s))
        as [[st w']|]; [|reflexivity].
      simpl. destruct (decide (st = -1)); [reflexivity|].
      apply IH. lia.
    + rewrite !randomread_loop_done by lia. reflexivity.
Qed.

Lemma randomread_loop_fuel_ge k fd dst n i s :
  n - i <= 8 ->
  randomread_loop (8 + k) fd dst n i s = randomread_loop 8 fd dst n i s.
Proof.
  intros Hf. induction k as [|k IH].
  - reflexivity.
  - replace (8 + S k)%nat with (S (8 + k)) by lia.
    rewrite randomread_loop_fuel by lia. exact IH.
Qed.

(** [randomread] in terms of its loop. *)
Lemma randomread_unfold fd dst n s :
  randomread fd dst n s
  = match randomread_loop 8 fd dst (if decide (n > 8) then 8 else n) 0
            (mk_kstate (rand_seed s) (devsw s) (world s) (trace s ++ [EvAcquire])) with
    | Some (i, s') =>
        Some (i, mk_kstate (rand_seed s') (devsw s') (world s')
                   (trace s' ++ [EvRelease]))
    | None => None
    end.
Proof.
  unfold randomread, mbind, kbind, acquire, release, log, mret, kret.
  match goal with
  | |- context [randomread_loop ?f ?a ?b ?c ?d ?e] =>
      destruct (randomread_loop f a b c d e) as [[i s']|]
  end; reflexivity.
Qed.

(** When the [k] copies of the bytes of [k] steps all report something
    other than [-1], [k] iterations of the loop go through. *)
Lemma randomread_loop_all fuel fd dst n i s sts w' :
  i + Z.of_nat fuel <= n ->
  copyout_each fd dst (lfsr_stream fuel (rand_seed s)) (world s) = Some (sts, w') ->
  Forall (fun st => st <> -1) sts ->
  randomread_loop fuel fd dst n i s
  = Some (i + Z.of_nat fuel,
          mk_kstate (lfsr_iter fuel (rand_seed s)) (devsw s) w'
            (trace s ++ copyout_events fd dst (lfsr_stream fuel (rand_seed s)) sts)).
Proof.
  revert i s sts w'. induction fuel as [|fuel IH]; intros i s sts w' Hn Hc Hok.
  - simpl in *. injection Hc as <- <-. simpl.
    rewrite Z.add_0_r, app_nil_r. destruct s; reflexivity.
  - rewrite randomread_loop_step by lia.
    simpl in Hc.
    destruct (either_copyout fd dst (lfsr_char (rand_seed s)) (world s))
      as [[st w1]|]; [|discriminate].
    destruct (copyout_each fd dst _ w1) as [[sts1 w2]|] eqn:Hc1; [|discriminate].
    injection Hc as <- <-.
    apply Forall_cons in Hok as [Hst Hok].
    simpl. destruct (decide (st = -1)) as [|_]; [contradiction|].
    rewrite (IH (i + 1) _ sts1 w2); simpl; [| lia | exact Hc1 | exact Hok].
    rewrite <- app_assoc. simpl. do 2 f_equal. lia.
Qed.

(** The copy that fails ends the loop at once: after [k] copies that went
    through, a copy that reports [-1] makes the loop return [i + k], with
    the seed stepped [k + 1] times. *)
Lemma randomread_loop_short fuel k fd dst n i s sts w1 w2 :
  (k < fuel)%nat ->
  i + Z.of_nat k < n ->
  copyout_each fd dst (lfsr_stream k (rand_seed s)) (world s) = Some (sts, w1) ->
  Forall (fun st => st <> -1) sts ->
  either_copyout fd dst (lfsr_iter (S k) (rand_seed s)) w1 = Some (-1, w2) ->
  randomread_loop fuel fd dst n i s
  = Some (i + Z.of_nat k,
          mk_kstate (lfsr_iter (S k) (rand_seed s)) (devsw s) w2
            (trace s ++ copyout_events fd dst (lfsr_stream k (rand_seed s)) sts
                     ++ [EvCopyout fd dst (lfsr_iter (S k) (rand_seed s)) (-1)])).
Proof.
  revert fuel i s sts w1. induction k as [|k IH]; intros fuel i s sts w1 Hf Hn Hc Hok Hbad.
  - destruct fuel as [|fuel]; [lia|].
    rewrite randomread_loop_step by lia.
    simpl in Hc. injection Hc as <- <-. simpl in Hbad. rewrite Hbad. simpl.
    rewrite Z.add_0_r. reflexivity.
  - destruct fuel as [|fuel]; [lia|].
    rewrite randomread_loop_step by lia.
    simpl in Hc.
    destruct (either_copyout fd dst (lfsr_char (rand_seed s)) (world s))
      as [[st wa]|]; [|discriminate].
    destruct (copyout_each fd dst _ wa) as [[sts1 wb]|] eqn:Hc1; [|discriminate].
    injection Hc as <- <-.
    apply Forall_cons in Hok as [Hst Hok].
    simpl. destruct (decide (st = -1)) as [|_]; [contradiction|].
    rewrite (IH fuel (i + 1) _ sts1 wb); simpl; [| lia | lia | exact Hc1 | exact Hok | exact Hbad].
    rewrite <- app_assoc. simpl. do 2 f_equal. lia.
Qed.

(** The loop never runs more than [n - i] times, whatever the fuel. *)
Lemma randomread_loop_bound fuel fd dst n i s r s' :
  randomread_loop fuel fd dst n i s = Some (r, s') ->
  i <= r <= Z.max i n /\
  (Z.of_nat (copyouts (trace s')) <= Z.of_nat (copyouts (trace s)) + Z.max 0 (n - i)) /\
  Z.of_nat (copyouts_ok (trace s')) = Z.of_nat (copyouts_ok (trace s)) + (r - i).
Proof.
  revert i s. induction fuel as [|fuel IH]; intros i s Hr.
  - simpl in Hr. injection Hr as <- <-. lia.
  - destruct (Z_lt_le_dec i n) as [Hlt|Hge].
    + rewrite randomread_loop_step in Hr by lia.
      destruct (either_copyout fd dst (lfsr_char (rand_seed s)) (world s))
        as [[st w']|]; [|discriminate].
      simpl in Hr.
      pose proof copyouts_app as Hc. pose proof copyouts_ok_app as Hk.
      destruct (decide (st = -1)) as [->|Hst].
      * injection Hr as <- <-. simpl. rewrite Hc, Hk. simpl. lia.
      * apply IH in Hr. simpl in Hr. rewrite Hc, Hk in Hr. simpl in Hr.
        destruct (decide (st = -1)); [contradiction|]. lia.
    + rewrite randomread_loop_done in Hr by lia. injection Hr as <- <-. lia.
Qed.

Lemma copyout_each_length fd dst bs w sts w' :
  copyout_each fd dst bs w = Some (sts, w') -> length sts = length bs.
Proof.
  revert w sts. induction bs as [|b bs IH]; intros w sts Hc; simpl in Hc.
  - injection Hc as <- <-. reflexivity.
  - destruct (either_copyout fd dst b w) as [[st w1]|]; [|discriminate].
    destruct (copyout_each fd dst bs w1) as [[sts1 w2]|] eqn:Hc1; [|discriminate].
    injection Hc as <- <-. simpl. f_equal. exact (IH _ _ Hc1).
Qed.

Lemma copyouts_events fd dst bs sts :
  length sts = length bs ->
  copyouts (copyout_events fd dst bs sts) = length bs.
Proof.
  revert sts. induction bs as [|b bs IH]; intros [|st sts] Hl; simpl in *;
    try reflexivity; try discriminate.
  f_equal. apply IH. lia.
Qed.

Lemma copyouts_ok_events fd dst bs sts :
  length sts = length bs ->
  Forall (fun st => st <> -1) sts ->
  copyouts_ok (copyout_events fd dst bs sts) = length bs.
Proof.
  revert sts. induction bs as [|b bs IH]; intros [|st sts] Hl Hok; simpl in *;
    try reflexivity; try discriminate.
  apply Forall_cons in Hok as [Hst Hok].
  destruct (decide (st = -1)); [contradiction|].
  f_equal. apply IH; [lia | exact Hok].
Qed.

Lemma randomread_loop_trace fuel fd dst n i s r s' :
  randomread_loop fuel fd dst n i s = Some (r, s') ->
  exists rest, trace s' = trace s ++ rest.
Proof.
  revert i s. induction fuel as [|fuel IH]; intros i s Hr.
  - simpl in Hr. injection Hr as <- <-. exists []. symmetry. apply app_nil_r.
  - destruct (Z_lt_le_dec i n) as [Hlt|Hge].
    + rewrite randomread_loop_step in Hr by lia.
      destruct (either_copyout fd dst (lfsr_char (rand_seed s)) (world s))
        as [[st w']|]; [|discriminate].
      simpl in Hr. destruct (decide (st = -1)).
      * injection Hr as <- <-. eexists. reflexivity.
      * apply IH in Hr as [rest Hr]. simpl in Hr.
        eexists. rewrite Hr, <- app_assoc. reflexivity.
    + rewrite randomread_loop_done in Hr by lia. injection Hr as <- <-.
      exists []. symmetry. apply app_nil_r.
Qed.

(** *** [randomread] *)

(** C10. For every requested length [n <= 0], [randomread] returns 0,
    makes no copy (the memory is the one it started with) and leaves the
    seed unchanged: the loop body never runs, only the lock is taken and
    released. *)
Theorem randomread_nonpositive fd dst n s :
  n <= 0 ->
  randomread fd dst n s
  = Some (0, mk_kstate (rand_seed s) (devsw s) (world s)
               (trace s ++ [EvAcquire; EvRelease])) /\
  copyouts (trace s ++ [EvAcquire; EvRelease]) = copyouts (trace s).
Proof.
  intros Hn. split.
  - rewrite randomread_unfold.
    destruct (decide (n > 8)) as [|_]; [lia|].
    rewrite randomread_loop_done by lia. simpl.
    rewrite <- app_assoc. reflexivity.
  - rewrite copyouts_app. simpl. lia.
Qed.

(** C5. For every requested length [n > 8], when the eight one-byte
    copies all succeed, [randomread] makes exactly those eight copies (of
    the bytes of eight successive steps, each by the call
    [either_copyout fd dst]), returns 8 and leaves the seed stepped eight
    times; and no call of [randomread], whatever its arguments, returns
    more than 8 or makes more than eight copies. *)
Theorem randomread_clamp fd dst n s sts w' :
  n > 8 ->
  copyout_each fd dst (lfsr_stream 8 (rand_seed s)) (world s) = Some (sts, w') ->
  Forall (fun st => st <> -1) sts ->
  (exists s',
      randomread fd dst n s = Some (8, s') /\
      rand_seed s' = lfsr_iter 8 (rand_seed s) /\
      world s' = w' /\
      trace s' = trace s ++ [EvAcquire]
                   ++ copyout_events fd dst (lfsr_stream 8 (rand_seed s)) sts
                   ++ [EvRelease] /\
      copyouts (trace s') = (copyouts (trace s) + 8)%nat /\
      copyouts_ok (trace s') = (copyouts_ok (trace s) + 8)%nat) /\
  (forall fd0 dst0 n0 s0 r s0',
      randomread fd0 dst0 n0 s0 = Some (r, s0') ->
      0 <= r <= 8 /\
      (copyouts (trace s0') <= copyouts (trace s0) + 8)%nat).
Proof.
  intros Hn Hc Hok.
  pose proof (copyout_each_length _ _ _ _ _ _ Hc) as Hlen.
  split.
  - eexists. split; [|split; [|split; [|split; [|split]]]].
    + rewrite randomread_unfold.
      destruct (decide (n > 8)) as [_|]; [|lia].
      erewrite (randomread_loop_all 8); [reflexivity | simpl; lia | exact Hc | exact Hok].
    + reflexivity.
    + reflexivity.
    + cbn [trace]. rewrite <- !app_assoc. reflexivity.
    + cbn [trace]. rewrite !copyouts_app, copyouts_events by exact Hlen.
      simpl. lia.
    + cbn [trace]. rewrite !copyouts_ok_app, copyouts_ok_events by assumption.
      simpl. lia.
  - intros fd0 dst0 n0 s0 r s0' Hr.
    rewrite randomread_unfold in Hr.
    match type of Hr with
    | context [randomread_loop ?f ?a ?b ?c ?d ?e] =>
        destruct (randomread_loop f a b c d e) as [[i s1]|] eqn:Hl; [|discriminate]
    end.
    injection Hr as <- <-. apply randomread_loop_bound in Hl as (Hi & Hcp & _).
    simpl in *. rewrite copyouts_app in *. simpl in *.
    destruct (decide (n0 > 8)); lia.
Qed.

(** A copy that fails cuts the call short: when the first [k] copies of a
    call go through and the next one reports [-1], with [k] below the
    clamped length, [randomread] returns [k], and the seed has been
    stepped [k + 1] times, the step of the failed iteration included. *)
Lemma randomread_short_count k fd dst n s sts w1 w2 :
  Z.of_nat k < Z.min n 8 ->
  copyout_each fd dst (lfsr_stream k (rand_seed s)) (world s) = Some (sts, w1) ->
  Forall (fun st => st <> -1) sts ->
  either_copyout fd dst (lfsr_iter (S k) (rand_seed s)) w1 = Some (-1, w2) ->
  randomread fd dst n s
  = Some (Z.of_nat k,
          mk_kstate (lfsr_iter (S k) (rand_seed s)) (devsw s) w2
            (trace s ++ [EvAcquire]
               ++ copyout_events fd dst (lfsr_stream k (rand_seed s)) sts
               ++ [EvCopyout fd dst (lfsr_iter (S k) (rand_seed s)) (-1); EvRelease])).
Proof.
  intros Hk Hc Hok Hbad. rewrite randomread_unfold.
  erewrite (randomread_loop_short 8 k); [| lia | | exact Hc | exact Hok | exact Hbad].
  - simpl. rewrite <- !app_assoc. reflexivity.
  - destruct (decide (n > 8)); lia.
Qed.

(** *** [randomwrite] *)

(** C6. For every length [n] other than 1 and every source,
    [randomwrite] returns [-1] and leaves the whole state as it was: the
    seed, the memory, and the log of calls, to which neither a lock
    operation nor a copy has been added. *)
Theorem randomwrite_bad_length fd src n s :
  n <> 1 -> randomwrite fd src n s = Some (-1, s).
Proof.
  intros Hn. unfold randomwrite.
  destruct (decide (n <> 1)); [reflexivity | contradiction].
Qed.

(** With length 1, [randomwrite] returns the status of its one call of
    [either_copyin], whatever that is, and the seed is the byte that the
    call stored, if it stored one. The flag of the call is [src]
    converted to [int], not [fd]. *)
Lemma randomwrite_copy_status fd src s st stored :
  either_copyin (to_int src) src (world s) = Some (st, stored) ->
  randomwrite fd src 1 s
  = Some (st, mk_kstate (from_option to_uint8 (rand_seed s) stored)
                (devsw s) (world s)
                (trace s ++ [EvAcquire; EvCopyin (to_int src) src st; EvRelease])).
Proof.
  intros Hc. unfold randomwrite.
  destruct (decide (1 <> 1)) as [|_]; [contradiction|].
  unfold mbind, kbind, acquire, release, log, copyin_seed. simpl.
  rewrite Hc. simpl. rewrite <- !app_assoc. reflexivity.
Qed.

(** The first argument of [randomwrite] plays no part. *)
Lemma randomwrite_ignores_fd fd fd' src n s :
  randomwrite fd src n s = randomwrite fd' src n s.
Proof. reflexivity. Qed.

(** When the copy that a call of [randomwrite] with length 1 makes, with
    [src] converted to [int] as its flag, reports the status [st] and stores
    nothing, the call returns [st] and the seed is unchanged. *)
Lemma randomwrite_copy_fault fd src s st :
  either_copyin (to_int src) src (world s) = Some (st, None) ->
  exists s',
    randomwrite fd src 1 s = Some (st, s') /\
    rand_seed s' = rand_seed s /\
    devsw s' = devsw s /\
    world s' = world s /\
    trace s' = trace s ++ [EvAcquire; EvCopyin (to_int src) src st; EvRelease].
Proof.
  intros Hc. eexists. split; [exact (randomwrite_copy_status fd src s st None Hc)|].
  repeat split.
Qed.

(** When the copy that [randomwrite] makes stores the byte [b], the seed
    is [b], and a following [randomread] of at least one byte gives
    [lfsr_char b] to its first copy. *)
Lemma randomwrite_reseed fd src s st b :
  is_uint8 b ->
  either_copyin (to_int src) src (world s) = Some (st, Some b) ->
  exists s',
    randomwrite fd src 1 s = Some (st, s') /\
    rand_seed s' = b /\
    (forall fd' dst n r s'',
        1 <= n ->
        randomread fd' dst n s' = Some (r, s'') ->
        exists st' rest,
          trace s'' = trace s' ++ EvAcquire :: EvCopyout fd' dst (lfsr_char b) st' :: rest).
Proof.
  intros Hb Hc. eexists. split; [exact (randomwrite_copy_status fd src s st _ Hc)|].
  simpl. rewrite to_uint8_small by exact Hb. split; [reflexivity|].
  intros fd' dst n r s'' Hn Hr. rewrite randomread_unfold in Hr.
  change 8%nat with (S 7) in Hr.
  rewrite randomread_loop_step in Hr by (destruct (decide (n > 8)); lia).
  cbn [rand_seed world devsw trace] in Hr.
  destruct (either_copyout fd' dst (lfsr_char b) (world s)) as [[st' w']|]; [|discriminate].
  cbv zeta in Hr.
  destruct (decide (st' = -1)).
  - injection Hr as <- <-. simpl. exists st', [EvRelease].
    rewrite <- !app_assoc. reflexivity.
  - match type of Hr with
    | context [randomread_loop ?f ?a ?b ?c ?d ?e] =>
        destruct (randomread_loop f a b c d e) as [[i s1]|] eqn:Hl; [|discriminate]
    end.
    injection Hr as <- <-. apply randomread_loop_trace in Hl as [rest Hl].
    cbn [trace] in *. rewrite Hl. exists st', (rest ++ [EvRelease]).
    rewrite <- !app_assoc. reflexivity.
Qed.

(** *** [randominit] *)

(** C8. When [RANDOM] is a slot of the device table, [randominit]
    completes, and in the state it leaves, before any read or write, the
    seed is [0x2A] and the slot [RANDOM] of [devsw] holds [randomread] as
    its read handler and [randomwrite] as its write handler; the other
    slots and the memory are untouched. *)
Theorem randominit_seed_and_handlers s :
  (RANDOM < length (devsw s))%nat ->
  exists s',
    randominit s = Some (tt, s') /\
    rand_seed s' = 42 /\
    devsw s' !! RANDOM = Some (mk_devsw (Some FnRandomread) (Some FnRandomwrite)) /\
    fnptr_target FnRandomread = Some randomread /\
    fnptr_target FnRandomwrite = Some randomwrite /\
    (forall j, j <> RANDOM -> devsw s' !! j = devsw s !! j) /\
    length (devsw s') = length (devsw s) /\
    world s' = world s /\
    trace s' = trace s ++ [EvInitlock "rand"].
Proof.
  intros Hr. destruct (lookup_lt_is_Some_2 _ _ Hr) as [e He].
  unfold randominit, mbind, kbind, initlock, log, set_devsw_read, set_devsw_write.
  cbn [devsw rand_seed world trace]. rewrite He.
  cbn [devsw rand_seed world trace].
  rewrite list_lookup_insert_eq by exact Hr.
  cbn [dev_read dev_write].
  eexists. split; [reflexivity|]. cbn [devsw rand_seed world trace].
  rewrite list_insert_insert_eq.
  split; [reflexivity|].
  split; [apply list_lookup_insert_eq; exact Hr|].
  split; [reflexivity|]. split; [reflexivity|].
  split; [intros j Hj; apply list_lookup_insert_ne; congruence|].
  split; [apply length_insert|].
  split; reflexivity.
Qed.

End DriverProperties.

(** ** The handlers on the copy primitives of the kernel *)

Section Xv6Properties.

Implicit Types (m : Xv6.memory) (s : kstate Xv6.memory).




(** A write of one byte from a mapped user address, given with a flag
    that is not zero, stores that byte and returns the status of the
    copy, which is 0. *)
Lemma xv6_randomwrite_mapped fd src s b :
  to_int src <> 0 ->
  Xv6.user (world s) !! src = Some b ->
  randomwrite fd src 1 s
  = Some (0, mk_kstate (to_uint8 b) (devsw s) (world s)
               (trace s ++ [EvAcquire; EvCopyin (to_int src) src 0; EvRelease])).
Proof.
  intros Hf Hb.
  apply (randomwrite_copy_status fd src s 0 (Some b)).
  cbn [either_copyin Xv6.kernel]. unfold Xv6.copyin.
  destruct (decide (to_int src <> 0)); [|contradiction].
  rewrite Hb. reflexivity.
Qed.

(** With [src = 0] the flag that [randomwrite] passes is 0: the byte is
    looked for at kernel address 0, and the user memory plays no part. *)
Lemma xv6_randomwrite_zero_src fd s :
  randomwrite fd 0 1 s
  = match Xv6.kern (world s) !! 0 with
    | Some b =>
        Some (0, mk_kstate (to_uint8 b) (devsw s) (world s)
                   (trace s ++ [EvAcquire; EvCopyin 0 0 0; EvRelease]))
    | None => None
    end.
Proof.
  destruct (Xv6.kern (world s) !! 0) as [b|] eqn:Hk.
  - apply (randomwrite_copy_status fd 0 s 0 (Some b)).
    cbn [either_copyin Xv6.kernel]. unfold Xv6.copyin.
    change (to_int 0) with 0. destruct (decide (0 <> 0)) as [|_]; [contradiction|].
    rewrite Hk. reflexivity.
  - unfold randomwrite. destruct (decide (1 <> 1)) as [|_]; [contradiction|].
    unfold mbind, kbind, acquire, log, copyin_seed.
    cbn [world either_copyin Xv6.kernel]. unfold Xv6.copyin.
    change (to_int 0) with 0. destruct (decide (0 <> 0)) as [|_]; [contradiction|].
    rewrite Hk. reflexivity.
Qed.

End Xv6Properties.

(** ** The handlers on concrete calls *)

Lemma randomread_nonpositive_witness :
  -3 <= 0 /\
  randomread 1 4096 (-3) (Xv6.seeded 42 (Xv6.user_zeros 4096 2))
  = Some (0, mk_kstate 42 (devsw (Xv6.seeded 42 (Xv6.user_zeros 4096 2)))
               (Xv6.user_zeros 4096 2)
               ([EvInitlock "rand"] ++ [EvAcquire; EvRelease])).
Proof.
  split; [lia|].
  apply (randomread_nonpositive 1 4096 (-3) (Xv6.seeded 42 (Xv6.user_zeros 4096 2))).
  lia.
Defined.

Lemma randomread_clamp_witness :
  20 > 8 /\
  exists s',
    randomread 1 4096 20 (Xv6.seeded 42 (Xv6.user_zeros 4096 8)) = Some (8, s') /\
    rand_seed s' = 119 /\
    copyouts (trace s') = 8%nat.
Proof.
  split; [lia|].
  destruct (randomread_clamp 1 4096 20 (Xv6.seeded 42 (Xv6.user_zeros 4096 8))
              (repeat 0 8)
              (Xv6.mk_memory (<[4096 := 119]> (Xv6.user (Xv6.user_zeros 4096 8))) ∅))
    as [(s' & Hr & Hs & _ & _ & Hc & _) _].
  - lia.
  - vm_compute. reflexivity.
  - repeat constructor; discriminate.
  - exists s'. split; [exact Hr|]. split; [exact Hs | exact Hc].
Defined.

Lemma randomwrite_bad_length_witness :
  2 <> 1 /\
  randomwrite 1 4096 2 (Xv6.seeded 42 (Xv6.user_byte 4096 85))
  = Some (-1, Xv6.seeded 42 (Xv6.user_byte 4096 85)).
Proof.
  split; [lia|].
  apply (randomwrite_bad_length 1 4096 2 (Xv6.seeded 42 (Xv6.user_byte 4096 85))).
  lia.
Defined.

Lemma randomwrite_copy_fault_witness :
  either_copyin (to_int 4097) 4097 (Xv6.user_byte 4096 85) = Some (-1, None) /\
  exists s',
    randomwrite 1 4097 1 (Xv6.seeded 42 (Xv6.user_byte 4096 85)) = Some (-1, s') /\
    rand_seed s' = 42.
Proof.
  split; [reflexivity|].
  destruct (randomwrite_copy_fault 1 4097 (Xv6.seeded 42 (Xv6.user_byte 4096 85)) (-1))
    as (s' & Hr & Hs & _).
  - reflexivity.
  - exists s'. split; [exact Hr | exact Hs].
Defined.

Lemma randominit_seed_and_handlers_witness :
  (RANDOM < length (devsw (Xv6.boot (Xv6.user_zeros 4096 2))))%nat /\
  exists s',
    randominit (Xv6.boot (Xv6.user_zeros 4096 2)) = Some (tt, s') /\
    rand_seed s' = 42 /\
    devsw s' !! RANDOM = Some (mk_devsw (Some FnRandomread) (Some FnRandomwrite)).
Proof.
  split; [simpl; lia|].
  destruct (randominit_seed_and_handlers (Xv6.boot (Xv6.user_zeros 4096 2)))
    as (s' & Hr & Hs & Hd & _).
  - simpl. lia.
  - exists s'. split; [exact Hr|]. split; [exact Hs | exact Hd].
Defined.

Example randominit_boot m : randominit (Xv6.boot m) = Some (tt, Xv6.seeded 42 m).
Proof. reflexivity. Qed.

(** C2, on a source at user address 0. The byte 0x55 is mapped at user
    address 0, and a copy from there with the user flag set yields it; yet
    [randomwrite 1 0 1] passes 0 as the flag, looks for the byte at kernel
    address 0 and does not return when nothing is mapped there, and takes
    the byte of kernel address 0 as the seed when something is. *)
Theorem xv6_randomwrite_user_address_zero :
  either_copyin 1 0 (Xv6.user_byte 0 85) = Some (0, Some 85) /\
  randomwrite 1 0 1 (Xv6.seeded 42 (Xv6.user_byte 0 85)) = None /\
  exists s',
    randomwrite 1 0 1 (Xv6.seeded 42 (Xv6.mk_memory {[ 0 := 85 ]} {[ 0 := 7 ]}))
    = Some (0, s') /\
    rand_seed s' = 7.
Proof.
  split; [reflexivity|]. split.
  - rewrite xv6_randomwrite_zero_src. reflexivity.
  - eexists. rewrite xv6_randomwrite_zero_src. split; reflexivity.
Qed.

(** C3, on a write that succeeds. The byte 0x55 is mapped at user address
    4096; [randomwrite 1 4096 1] stores it as the seed and returns 0, the
    status of the copy, not a positive count. *)
Theorem xv6_randomwrite_success_status :
  randomwrite 1 4096 1 (Xv6.seeded 42 (Xv6.user_byte 4096 85))
  = Some (0, mk_kstate 85 (devsw (Xv6.seeded 42 (Xv6.user_byte 4096 85)))
               (Xv6.user_byte 4096 85)
               [EvInitlock "rand"; EvAcquire; EvCopyin 4096 4096 0; EvRelease]).
Proof.
  rewrite (xv6_randomwrite_mapped 1 4096 _ 85); [reflexivity | discriminate | reflexivity].
Qed.

(** C4, on a destination of two bytes. User addresses 4096 and 4097 are
    mapped and 4098 is not, so that the third byte of the destination faults;
    [randomread 1 4096 5] makes its five copies to address 4096, returns 5
    and leaves the seed stepped five times. Address 4097 still holds what it
    held. *)
Theorem xv6_randomread_two_byte_buffer :
  (Xv6.user (Xv6.user_zeros 4096 2) !! 4096 = Some 0 /\
   Xv6.user (Xv6.user_zeros 4096 2) !! 4097 = Some 0 /\
   Xv6.user (Xv6.user_zeros 4096 2) !! 4098 = None) /\
  exists s',
    randomread 1 4096 5 (Xv6.seeded 42 (Xv6.user_zeros 4096 2)) = Some (5, s') /\
    rand_seed s' = lfsr_iter 5 42 /\
    lfsr_iter 5 42 = 185 /\ lfsr_iter 3 42 = 229 /\
    Xv6.user (world s') !! 4096 = Some 185 /\
    Xv6.user (world s') !! 4097 = Some 0 /\
    trace s' = [EvInitlock "rand"; EvAcquire;
                EvCopyout 1 4096 149 0; EvCopyout 1 4096 202 0;
                EvCopyout 1 4096 229 0; EvCopyout 1 4096 114 0;
                EvCopyout 1 4096 185 0; EvRelease].
Proof.
  split; [repeat split; vm_compute; reflexivity|].
  eexists. split; [vm_compute; reflexivity|].
  repeat split; vm_compute; reflexivity.
Qed.


(** C7, on an invalid source whose low 32 bits are zero. User address
    [2^32] is not mapped, and a copy from there with the user flag set
    reports [-1] and stores nothing; yet [randomwrite 1 (2^32) 1] passes
    [(int)src = 0] as the flag and reads kernel address [2^32]: it does not
    return when nothing is mapped there, and when the byte 7 is, it returns
    0 and the seed 0x2A is overwritten with 7. *)
Theorem xv6_randomwrite_invalid_source_zero_flag :
  Xv6.user (Xv6.user_byte 4096 85) !! 4294967296 = None /\
  either_copyin 1 4294967296 (Xv6.user_byte 4096 85) = Some (-1, None) /\
  to_int 4294967296 = 0 /\
  randomwrite 1 4294967296 1 (Xv6.seeded 42 (Xv6.user_byte 4096 85)) = None /\
  exists s',
    randomwrite 1 4294967296 1
      (Xv6.seeded 42 (Xv6.mk_memory {[ 4096 := 85 ]} {[ 4294967296 := 7 ]}))
    = Some (0, s') /\
    rand_seed s' = 7 /\
    Xv6.user (world s') !! 4294967296 = None.
Proof.
  split; [vm_compute; reflexivity|].
  split; [vm_compute; reflexivity|].
  split; [reflexivity|].
  split; [vm_compute; reflexivity|].
  eexists. split; [vm_compute; reflexivity|].
  split; vm_compute; reflexivity.
Qed.

(** ** Further properties of the LFSR step *)

Lemma bytes_forallb (P : Z -> bool) :
  forallb P bytes = true -> forall s, is_uint8 s -> P s = true.
Proof.
  intros H s Hs. rewrite forallb_forall in H. apply H.
  unfold bytes. rewrite <- (Z2Nat.id s) by (unfold is_uint8 in Hs; lia).
  apply in_map, in_seq. unfold is_uint8 in Hs. lia.
Qed.

Lemma lfsr_prev_range t : is_uint8 (lfsr_prev t).
Proof. apply to_uint8_range. Qed.

Lemma lfsr_prev_char s : is_uint8 s -> lfsr_prev (lfsr_char s) = s.
Proof.
  intros Hs. apply Z.eqb_eq.
  apply (bytes_forallb (fun s => lfsr_prev (lfsr_char s) =? s)); [|exact Hs].
  vm_compute. reflexivity.
Qed.

Lemma lfsr_char_prev t : is_uint8 t -> lfsr_char (lfsr_prev t) = t.
Proof.
  intros Ht. apply Z.eqb_eq.
  apply (bytes_forallb (fun t => lfsr_char (lfsr_prev t) =? t)); [|exact Ht].
  vm_compute. reflexivity.
Qed.

(** X1. On 8-bit states the step is a bijection: two different states never
    step to the same state, and every state is the step of exactly the state
    that [lfsr_prev] gives. *)
Theorem lfsr_char_bijective (s t : Z) :
  is_uint8 s -> is_uint8 t ->
  (lfsr_char s = lfsr_char t -> s = t) /\
  (lfsr_char s = t <-> s = lfsr_prev t).
Proof.
  intros Hs Ht. split.
  - intros H. rewrite <- (lfsr_prev_char s Hs), <- (lfsr_prev_char t Ht), H.
    reflexivity.
  - split.
    + intros <-. symmetry. apply lfsr_prev_char, Hs.
    + intros ->. apply lfsr_char_prev, Ht.
Qed.

Lemma lfsr_char_bijective_witness :
  is_uint8 42 /\ is_uint8 149 /\ (lfsr_char 42 = 149 <-> 42 = lfsr_prev 149).
Proof.
  assert (H1 : is_uint8 42) by (unfold is_uint8; lia).
  assert (H2 : is_uint8 149) by (unfold is_uint8; lia).
  split; [exact H1|]. split; [exact H2|].
  exact (proj2 (lfsr_char_bijective 42 149 H1 H2)).
Defined.

Lemma lfsr_iter_S k s : lfsr_iter (S k) s = lfsr_iter k (lfsr_char s).
Proof. reflexivity. Qed.

Lemma lfsr_iter_add a b s : lfsr_iter (a + b) s = lfsr_iter b (lfsr_iter a s).
Proof.
  revert s. induction a as [|a IH]; intros s; [reflexivity|].
  simpl. apply IH.
Qed.

Lemma lfsr_char_nonzero s : is_uint8 s -> s <> 0 -> lfsr_char s <> 0.
Proof.
  intros Hs Hnz H0. apply Hnz.
  rewrite <- (lfsr_prev_char s Hs), H0. reflexivity.
Qed.

(** X2. A state other than 0 never steps to 0: from a non-zero 8-bit seed,
    no number of steps reaches the stuck state, and 0 is only reached from
    0. *)
Theorem lfsr_never_stuck (k : nat) (s : Z) :
  is_uint8 s ->
  (lfsr_iter k s = 0 <-> s = 0).
Proof.
  revert s. induction k as [|k IH]; intros s Hs; simpl; [tauto|].
  rewrite (IH (lfsr_char s) (lfsr_char_range s)). split.
  - intros H0. destruct (Z.eq_dec s 0) as [|Hnz]; [assumption|].
    exfalso. exact (lfsr_char_nonzero s Hs Hnz H0).
  - intros ->. reflexivity.
Qed.

Lemma lfsr_never_stuck_witness :
  is_uint8 42 /\ (lfsr_iter 1000 42 = 0 <-> 42 = 0).
Proof.
  assert (H : is_uint8 42) by (unfold is_uint8; lia).
  split; [exact H | exact (lfsr_never_stuck 1000 42 H)].
Defined.

Lemma lfsr_find_sound fuel s t k :
  lfsr_find fuel s t = Some k ->
  (k <= fuel)%nat /\ lfsr_iter k s = t /\
  forall j, (j < k)%nat -> lfsr_iter j s <> t.
Proof.
  revert s k. induction fuel as [|fuel IH]; intros s k; simpl.
  - destruct (Z.eqb_spec s t) as [->|Hne]; [|discriminate].
    intros [= <-]. repeat split; [lia|]. intros j Hj. lia.
  - destruct (Z.eqb_spec s t) as [->|Hne].
    + intros [= <-]. repeat split; [lia|]. intros j Hj. lia.
    + destruct (lfsr_find fuel (lfsr_char s) t) as [k'|] eqn:Hf; [|discriminate].
      intros [= <-]. destruct (IH _ _ Hf) as (Hk & Ht & Hmin).
      repeat split; [lia | exact Ht |].
      intros [|j] Hj; simpl; [exact Hne | apply Hmin; lia].
Qed.

(** The cycle of a non-zero state, found by running the step on each of the
    255 states. *)
Lemma lfsr_cycle_255 (s : Z) :
  is_uint8 s -> s <> 0 ->
  lfsr_iter 255 s = s /\
  forall k, (0 < k < 255)%nat -> lfsr_iter k s <> s.
Proof.
  intros Hs Hnz.
  assert (Hf : lfsr_find 254 (lfsr_char s) s = Some 254%nat).
  { pose proof (bytes_forallb
      (fun s => (s =? 0)
                || match lfsr_find 254 (lfsr_char s) s with
                   | Some k => Nat.eqb k 254
                   | None => false
                   end)) as Hb.
    specialize (Hb ltac:(vm_compute; reflexivity) s Hs). cbv beta in Hb.
    apply orb_true_iff in Hb as [Hz|Hb].
    - apply Z.eqb_eq in Hz. contradiction.
    - destruct (lfsr_find 254 (lfsr_char s) s) as [k|]; [|discriminate].
      apply Nat.eqb_eq in Hb. congruence. }
  apply lfsr_find_sound in Hf as (_ & Hback & Hmin). split.
  - rewrite (lfsr_iter_S 254 s). exact Hback.
  - intros [|k] Hk; [lia|].
    rewrite lfsr_iter_S. apply Hmin. lia.
Qed.

(** X3. Every non-zero 8-bit state lies on a cycle of length exactly 255:
    255 steps lead back to it and no smaller positive number of steps
    does. *)
Theorem lfsr_period_255 (s : Z) :
  is_uint8 s -> s <> 0 ->
  lfsr_iter 255 s = s /\
  forall k, (0 < k < 255)%nat -> lfsr_iter k s <> s.
Proof. exact (lfsr_cycle_255 s). Qed.

Lemma lfsr_period_255_witness :
  is_uint8 42 /\ 42 <> 0 /\ lfsr_iter 255 42 = 42 /\ lfsr_iter 85 42 <> 42.
Proof.
  assert (H : is_uint8 42) by (unfold is_uint8; lia).
  assert (Hnz : 42 <> 0) by lia.
  split; [exact H|]. split; [exact Hnz|].
  destruct (lfsr_period_255 42 H Hnz) as [Hp Hmin].
  split; [exact Hp | apply Hmin; lia].
Defined.

Lemma lfsr_reach_from_1 t :
  is_uint8 t -> t <> 0 -> exists k, (k < 255)%nat /\ lfsr_iter k 1 = t.
Proof.
  intros Ht Hnz.
  pose proof (bytes_forallb
    (fun t => (t =? 0)
              || match lfsr_find 254 1 t with
                 | Some _ => true
                 | None => false
                 end)) as Hb.
  specialize (Hb ltac:(vm_compute; reflexivity) t Ht). cbv beta in Hb.
  apply orb_true_iff in Hb as [Hz|Hb].
  - apply Z.eqb_eq in Hz. contradiction.
  - destruct (lfsr_find 254 1 t) as [k|] eqn:Hf; [|discriminate].
    apply lfsr_find_sound in Hf as (Hk & Hr & _).
    exists k. split; [lia | exact Hr].
Qed.

(** X4. The non-zero 8-bit states form a single cycle: from every non-zero
    state, every non-zero state is reached in fewer than 255 steps. *)
Theorem lfsr_reaches_every_nonzero (s t : Z) :
  is_uint8 s -> s <> 0 -> is_uint8 t -> t <> 0 ->
  exists k, (k < 255)%nat /\ lfsr_iter k s = t.
Proof.
  intros Hs Hsz Ht Htz.
  destruct (lfsr_reach_from_1 s Hs Hsz) as (i & Hi & <-).
  destruct (lfsr_reach_from_1 t Ht Htz) as (j & Hj & <-).
  destruct (le_lt_dec i j) as [Hle|Hlt].
  - exists (j - i)%nat. split; [lia|].
    rewrite <- lfsr_iter_add. f_equal. lia.
  - exists (255 - i + j)%nat. split; [lia|].
    rewrite <- lfsr_iter_add.
    replace (i + (255 - i + j))%nat with (255 + j)%nat by lia.
    rewrite lfsr_iter_add.
    assert (H1 : lfsr_iter 255 1 = 1)
      by (apply lfsr_cycle_255; unfold is_uint8; lia).
    rewrite H1. reflexivity.
Qed.

Lemma lfsr_reaches_every_nonzero_witness :
  is_uint8 42 /\ 42 <> 0 /\ is_uint8 255 /\ 255 <> 0 /\
  exists k, (k < 255)%nat /\ lfsr_iter k 42 = 255.
Proof.
  assert (H1 : is_uint8 42) by (unfold is_uint8; lia).
  assert (H2 : is_uint8 255) by (unfold is_uint8; lia).
  assert (N1 : 42 <> 0) by lia.
  assert (N2 : 255 <> 0) by lia.
  split; [exact H1|]. split; [exact N1|]. split; [exact H2|]. split; [exact N2|].
  exact (lfsr_reaches_every_nonzero 42 255 H1 N1 H2 N2).
Defined.

Lemma lfsr_stream_app a b s :
  lfsr_stream (a + b) s = lfsr_stream a s ++ lfsr_stream b (lfsr_iter a s).
Proof.
  revert s. induction a as [|a IH]; intros s; [reflexivity|].
  simpl. rewrite IH. reflexivity.
Qed.

Lemma lfsr_stream_length k s : length (lfsr_stream k s) = k.
Proof.
  revert s. induction k as [|k IH]; intros s; [reflexivity|].
  simpl. rewrite IH. reflexivity.
Qed.

Lemma lock_run_app h t1 t2 :
  lock_run h (t1 ++ t2) = lock_run h t1 ≫= fun h' => lock_run h' t2.
Proof.
  revert h. induction t1 as [|e t1 IH]; intros h; [reflexivity|].
  destruct e, h; simpl; try reflexivity; apply IH.
Qed.

Lemma lock_run_copyout_events fd dst bs sts :
  lock_run true (copyout_events fd dst bs sts) = Some true.
Proof.
  revert sts. induction bs as [|b bs IH]; intros [|st sts]; try reflexivity.
  simpl. apply IH.
Qed.

(** ** Further properties of the device handlers, for any kernel *)

Section DriverComposition.
Context {World : Type} `{!Kernel World}.

Implicit Types (s : kstate World) (w : World).

(** What a run of the loop that returns has done: it has copied out the
    first [length sts] bytes of the stream of the seed, with the statuses
    [sts], of which only the last can be [-1]. *)
Lemma randomread_loop_returns fuel fd dst n i s r s' :
  n - i <= Z.of_nat fuel ->
  randomread_loop fuel fd dst n i s = Some (r, s') ->
  exists sts,
    copyout_each fd dst (lfsr_stream (length sts) (rand_seed s)) (world s)
    = Some (sts, world s') /\
    rand_seed s' = lfsr_iter (length sts) (rand_seed s) /\
    devsw s' = devsw s /\
    trace s' = trace s
               ++ copyout_events fd dst (lfsr_stream (length sts) (rand_seed s)) sts /\
    ((Forall (fun st => st <> -1) sts /\
      r = i + Z.of_nat (length sts) /\ r = Z.max i n) \/
     (exists oks, sts = oks ++ [-1] /\ Forall (fun st => st <> -1) oks /\
                  r = i + Z.of_nat (length oks) /\ r < n)).
Proof.
  revert i s. induction fuel as [|fuel IH]; intros i s Hf Hr.
  - rewrite randomread_loop_done in Hr by lia. injection Hr as <- <-.
    exists []. simpl. rewrite app_nil_r.
    repeat split. left. split; [constructor|]. lia.
  - destruct (Z_lt_le_dec i n) as [Hlt|Hge].
    + rewrite randomread_loop_step in Hr by lia.
      destruct (either_copyout fd dst (lfsr_char (rand_seed s)) (world s))
        as [[st w1]|] eqn:Hc; [|discriminate].
      cbv zeta in Hr. destruct (decide (st = -1)) as [->|Hst].
      * injection Hr as <- <-. exists [-1]. simpl. rewrite Hc.
        repeat split. right. exists []. simpl.
        repeat split; [constructor | lia | lia].
      * apply IH in Hr; [|lia].
        destruct Hr as (sts & Hce & Hseed & Hdev & Htr & Hcase).
        cbn [rand_seed world devsw trace] in *.
        exists (st :: sts). simpl. rewrite Hc, Hce.
        split; [reflexivity|]. split; [exact Hseed|]. split; [exact Hdev|].
        split; [rewrite Htr, <- app_assoc; reflexivity|].
        destruct Hcase as [(Hok & Hr1 & Hr2)|(oks & -> & Hok & Hr1 & Hr2)].
        -- left. split; [constructor; assumption|]. lia.
        -- right. exists (st :: oks). simpl.
           repeat split; [constructor; assumption | lia | lia].
    + rewrite randomread_loop_done in Hr by lia. injection Hr as <- <-.
      exists []. simpl. rewrite app_nil_r.
      repeat split. left. split; [constructor|]. lia.
Qed.

Lemma read_len_clamp n :
  Z.of_nat (read_len n) = Z.max 0 (if decide (n > 8) then 8 else n) /\
  (read_len n <= 8)%nat.
Proof. unfold read_len. destruct (decide (n > 8)); lia. Qed.

(** The same for a call of [randomread]. *)
Lemma randomread_returns fd dst n s r s' :
  randomread fd dst n s = Some (r, s') ->
  exists sts,
    copyout_each fd dst (lfsr_stream (length sts) (rand_seed s)) (world s)
    = Some (sts, world s') /\
    rand_seed s' = lfsr_iter (length sts) (rand_seed s) /\
    devsw s' = devsw s /\
    trace s' = trace s ++ [EvAcquire]
               ++ copyout_events fd dst (lfsr_stream (length sts) (rand_seed s)) sts
               ++ [EvRelease] /\
    ((Forall (fun st => st <> -1) sts /\
      r = Z.of_nat (length sts) /\ length sts = read_len n) \/
     (exists oks, sts = oks ++ [-1] /\ Forall (fun st => st <> -1) oks /\
                  r = Z.of_nat (length oks) /\ (length oks < read_len n)%nat)).
Proof.
  intros Hr. rewrite randomread_unfold in Hr.
  destruct (read_len_clamp n) as [Hlen _].
  match type of Hr with
  | context [randomread_loop ?f ?a ?b ?c ?d ?e] =>
      destruct (randomread_loop f a b c d e) as [[i s1]|] eqn:Hl; [|discriminate]
  end.
  injection Hr as <- <-.
  apply randomread_loop_returns in Hl; [|destruct (decide (n > 8)); simpl; lia].
  destruct Hl as (sts & Hce & Hseed & Hdev & Htr & Hcase).
  cbn [rand_seed world devsw trace] in *.
  exists sts. split; [exact Hce|]. split; [exact Hseed|]. split; [exact Hdev|].
  split; [rewrite Htr, <- !app_assoc; reflexivity|].
  destruct Hcase as [(Hok & Hr1 & Hr2)|(oks & -> & Hok & Hr1 & Hr2)].
  - left. split; [exact Hok|]. split; lia.
  - right. exists oks. repeat split; [exact Hok | lia | lia].
Qed.

Lemma copyout_events_length fd dst bs sts :
  length sts = length bs ->
  length (copyout_events fd dst bs sts) = length sts.
Proof.
  revert sts. induction bs as [|b bs IH]; intros [|st sts] Hl; simpl in *;
    try reflexivity; try discriminate.
  f_equal. apply IH. lia.
Qed.

Lemma copyout_events_app fd dst (bs1 bs2 l1 l2 : list Z) :
  length bs1 = length l1 ->
  copyout_events fd dst (bs1 ++ bs2) (l1 ++ l2)
  = copyout_events fd dst bs1 l1 ++ copyout_events fd dst bs2 l2.
Proof.
  revert l1. induction bs1 as [|b bs1 IHb]; intros [|x l1] Hx; simpl in *;
    try discriminate; try reflexivity.
  f_equal. apply IHb. lia.
Qed.

(** X5. A call of [randomread] that returns has given its copies the
    successive states of the LFSR from the seed on, in order and each to the
    one address [dst]; the seed it leaves is the byte given to the last
    copy, the handler table is untouched, and the log has gained the
    acquire, these copies and the release, in this order. *)
Theorem randomread_emits_stream fd dst n s r s' :
  randomread fd dst n s = Some (r, s') ->
  exists sts,
    (length sts <= read_len n)%nat /\
    copyout_each fd dst (lfsr_stream (length sts) (rand_seed s)) (world s)
    = Some (sts, world s') /\
    rand_seed s' = lfsr_iter (length sts) (rand_seed s) /\
    devsw s' = devsw s /\
    trace s' = trace s ++ [EvAcquire]
               ++ copyout_events fd dst (lfsr_stream (length sts) (rand_seed s)) sts
               ++ [EvRelease].
Proof.
  intros Hr. apply randomread_returns in Hr.
  destruct Hr as (sts & Hce & Hseed & Hdev & Htr & Hcase).
  exists sts. split; [|auto].
  destruct Hcase as [(_ & _ & Hl)|(oks & -> & _ & _ & Hl)].
  - lia.
  - rewrite length_app. simpl. lia.
Qed.

(** X6. The value that [randomread] returns is the number of its copies
    that did not report [-1]; it is never negative and never above the
    clamped length. A full count means one step of the seed per byte; a
    short count means that exactly one more copy was made, the one that
    failed, and that the seed was stepped for it too. *)
Theorem randomread_count fd dst n s r s' :
  randomread fd dst n s = Some (r, s') ->
  0 <= r <= Z.of_nat (read_len n) /\
  copyouts_ok (trace s') = (copyouts_ok (trace s) + Z.to_nat r)%nat /\
  ((r = Z.of_nat (read_len n) /\
    copyouts (trace s') = (copyouts (trace s) + Z.to_nat r)%nat /\
    rand_seed s' = lfsr_iter (Z.to_nat r) (rand_seed s)) \/
   (r < Z.of_nat (read_len n) /\
    copyouts (trace s') = (copyouts (trace s) + S (Z.to_nat r))%nat /\
    rand_seed s' = lfsr_iter (S (Z.to_nat r)) (rand_seed s))).
Proof.
  intros Hr. apply randomread_returns in Hr.
  destruct Hr as (sts & Hce & Hseed & Hdev & Htr & Hcase).
  pose proof (copyout_each_length _ _ _ _ _ _ Hce) as Hlen.
  rewrite lfsr_stream_length in Hlen.
  assert (Hlen' : length sts = length (lfsr_stream (length sts) (rand_seed s)))
    by (rewrite lfsr_stream_length; reflexivity).
  rewrite Htr, !copyouts_app, !copyouts_ok_app, copyouts_events by exact Hlen'.
  rewrite lfsr_stream_length. simpl copyouts. simpl copyouts_ok.
  destruct Hcase as [(Hok & -> & Hl)|(oks & -> & Hok & -> & Hl)].
  - rewrite copyouts_ok_events, lfsr_stream_length by assumption.
    rewrite Nat2Z.id, Hseed.
    split; [lia|]. split; [lia|]. left. split; [lia|]. split; [lia | reflexivity].
  - rewrite length_app in *. simpl length in *.
    replace (length oks + 1)%nat with (S (length oks)) in * by lia.
    rewrite Nat2Z.id, Hseed.
    split; [lia|]. split.
    + replace (S (length oks)) with (length oks + 1)%nat by lia.
      rewrite lfsr_stream_app.
      rewrite copyout_events_app by (rewrite lfsr_stream_length; reflexivity).
      rewrite copyouts_ok_app, copyouts_ok_events
        by (rewrite ?lfsr_stream_length; auto).
      rewrite lfsr_stream_length. simpl. lia.
    + right. split; [lia|]. split; [lia | reflexivity].
Qed.

End DriverComposition.

Section DriverSequences.
Context {World : Type} `{!Kernel World}.

Implicit Types (s : kstate World) (w : World).

Lemma randomread_loop_fuel_le f1 f2 fd dst n i s :
  n - i <= Z.of_nat f1 -> (f1 <= f2)%nat ->
  randomread_loop f2 fd dst n i s = randomread_loop f1 fd dst n i s.
Proof.
  intros Hf Hle. induction Hle as [|f2 Hle IH]; [reflexivity|].
  rewrite randomread_loop_fuel by lia. exact IH.
Qed.


(** A call all of whose copies succeed, for any length. *)
Lemma randomread_all_ok fd dst n s sts w' :
  copyout_each fd dst (lfsr_stream (read_len n) (rand_seed s)) (world s)
  = Some (sts, w') ->
  Forall (fun st => st <> -1) sts ->
  randomread fd dst n s
  = Some (Z.of_nat (read_len n),
          mk_kstate (lfsr_iter (read_len n) (rand_seed s)) (devsw s) w'
            (trace s ++ [EvAcquire]
               ++ copyout_events fd dst (lfsr_stream (read_len n) (rand_seed s)) sts
               ++ [EvRelease])).
Proof.
  intros Hc Hok. rewrite randomread_unfold.
  destruct (read_len_clamp n) as [Hlen H8].
  set (n' := if decide (n > 8) then 8 else n) in *.
  rewrite (randomread_loop_fuel_le (read_len n) 8) by lia.
  destruct (Z_le_gt_dec n' 0) as [Hle|Hgt].
  - assert (H0 : read_len n = O) by lia. rewrite H0 in *.
    simpl in Hc. injection Hc as <- <-.
    rewrite randomread_loop_done by lia. simpl. rewrite <- app_assoc. reflexivity.
  - erewrite randomread_loop_all; [| lia | exact Hc | exact Hok].
    cbn [rand_seed world devsw trace]. rewrite <- !app_assoc. reflexivity.
Qed.

(** X7. When the copies of the [read_len n] bytes that a call asks for all
    succeed, [randomread] returns [read_len n], that is [n] clamped between
    0 and 8, and leaves the seed stepped [read_len n] times. *)
Theorem randomread_full fd dst n s sts w' :
  copyout_each fd dst (lfsr_stream (read_len n) (rand_seed s)) (world s)
  = Some (sts, w') ->
  Forall (fun st => st <> -1) sts ->
  randomread fd dst n s
  = Some (Z.of_nat (read_len n),
          mk_kstate (lfsr_iter (read_len n) (rand_seed s)) (devsw s) w'
            (trace s ++ [EvAcquire]
               ++ copyout_events fd dst (lfsr_stream (read_len n) (rand_seed s)) sts
               ++ [EvRelease])).
Proof. exact (randomread_all_ok fd dst n s sts w'). Qed.

(** X8. When the first copy of a call that asks for at least one byte fails,
    [randomread] returns 0 and yet leaves the seed stepped once: the byte
    that was not delivered is skipped, and for a non-zero 8-bit seed the
    seed after the call differs from the seed before it. *)
Theorem randomread_first_copy_fails fd dst n s w2 :
  1 <= n ->
  either_copyout fd dst (lfsr_char (rand_seed s)) (world s) = Some (-1, w2) ->
  randomread fd dst n s
  = Some (0, mk_kstate (lfsr_char (rand_seed s)) (devsw s) w2
               (trace s ++ [EvAcquire;
                            EvCopyout fd dst (lfsr_char (rand_seed s)) (-1);
                            EvRelease])) /\
  (is_uint8 (rand_seed s) -> rand_seed s <> 0 ->
   lfsr_char (rand_seed s) <> rand_seed s).
Proof.
  intros Hn Hc. split.
  - rewrite (randomread_short_count 0 fd dst n s [] (world s) w2);
      [reflexivity | simpl; lia | reflexivity | constructor | exact Hc].
  - intros Hs Hnz. apply (proj2 (lfsr_cycle_255 _ Hs Hnz) 1%nat). lia.
Qed.


(** X10. A write that stores the byte [b], followed by a read all of whose
    copies succeed, delivers the stream of the LFSR started at [b], first
    byte [lfsr_char b]: what is read after a reseed depends on the byte
    written alone, not on the seed before the write. *)
Theorem randomwrite_then_randomread fd src fd' dst n s st b sts w' :
  is_uint8 b ->
  either_copyin (to_int src) src (world s) = Some (st, Some b) ->
  copyout_each fd' dst (lfsr_stream (read_len n) b) (world s) = Some (sts, w') ->
  Forall (fun st => st <> -1) sts ->
  exists s1 s2,
    randomwrite fd src 1 s = Some (st, s1) /\
    rand_seed s1 = b /\
    randomread fd' dst n s1 = Some (Z.of_nat (read_len n), s2) /\
    rand_seed s2 = lfsr_iter (read_len n) b /\
    world s2 = w' /\
    trace s2 = trace s ++ [EvAcquire; EvCopyin (to_int src) src st; EvRelease]
               ++ [EvAcquire]
               ++ copyout_events fd' dst (lfsr_stream (read_len n) b) sts
               ++ [EvRelease].
Proof.
  intros Hb Hin Hc Hok.
  pose proof (randomwrite_copy_status fd src s st (Some b) Hin) as Hw.
  simpl from_option in Hw. rewrite (to_uint8_small b Hb) in Hw.
  eexists. eexists. split; [exact Hw|]. split; [reflexivity|].
  split; [apply (randomread_all_ok fd' dst n _ sts w'); [exact Hc | exact Hok]|].
  cbn [rand_seed world devsw trace].
  split; [reflexivity|]. split; [reflexivity|].
  rewrite <- !app_assoc. reflexivity.
Qed.

Lemma randominit_unfold s :
  (RANDOM < length (devsw s))%nat ->
  randominit s
  = Some (tt, mk_kstate 42
                (<[RANDOM := mk_devsw (Some FnRandomread) (Some FnRandomwrite)]> (devsw s))
                (world s) (trace s ++ [EvInitlock "rand"])).
Proof.
  intros Hr. destruct (lookup_lt_is_Some_2 _ _ Hr) as [e He].
  unfold randominit, mbind, kbind, initlock, log, set_devsw_read, set_devsw_write.
  cbn [devsw rand_seed world trace]. rewrite He.
  cbn [devsw rand_seed world trace].
  rewrite list_lookup_insert_eq by exact Hr.
  cbn [dev_read dev_write devsw rand_seed world trace].
  rewrite list_insert_insert_eq. reflexivity.
Qed.

(** X11. After [randominit] the generator is in a known state: a first
    read of eight bytes or more, all of whose copies succeed, delivers the
    bytes 0x95 0xCA 0xE5 0x72 0xB9 0xDC 0xEE 0x77 and leaves the seed
    0x77. *)
Theorem randominit_then_randomread fd dst n s sts w' :
  (RANDOM < length (devsw s))%nat ->
  n >= 8 ->
  copyout_each fd dst [149; 202; 229; 114; 185; 220; 238; 119] (world s)
  = Some (sts, w') ->
  Forall (fun st => st <> -1) sts ->
  exists s1 s2,
    randominit s = Some (tt, s1) /\
    randomread fd dst n s1 = Some (8, s2) /\
    rand_seed s2 = 119 /\
    world s2 = w' /\
    trace s2 = trace s ++ [EvInitlock "rand"; EvAcquire]
               ++ copyout_events fd dst [149; 202; 229; 114; 185; 220; 238; 119] sts
               ++ [EvRelease].
Proof.
  intros Hr Hn Hc Hok.
  assert (Hl : read_len n = 8%nat) by (unfold read_len; lia).
  eexists. eexists. split; [apply randominit_unfold, Hr|].
  pose proof (randomread_all_ok fd dst n
                (mk_kstate 42
                   (<[RANDOM := mk_devsw (Some FnRandomread) (Some FnRandomwrite)]> (devsw s))
                   (world s) (trace s ++ [EvInitlock "rand"])) sts w') as R.
  rewrite Hl in R. specialize (R Hc Hok).
  split; [exact R|]. cbn [rand_seed world devsw trace].
  split; [reflexivity|]. split; [reflexivity|].
  rewrite <- !app_assoc. reflexivity.
Qed.

(** X12. The three entry points keep the discipline of [rand.lock]: from a
    log in which the lock is free, every call that returns leaves a log in
    which the lock is free again, in which the lock was never taken twice
    or released while free, and in which every copy was made while the lock
    was held. *)
Theorem lock_discipline s :
  lock_run false (trace s) = Some false ->
  (forall fd dst n r s',
      randomread fd dst n s = Some (r, s') -> lock_run false (trace s') = Some false) /\
  (forall fd src n r s',
      randomwrite fd src n s = Some (r, s') -> lock_run false (trace s') = Some false) /\
  (forall s', randominit s = Some (tt, s') -> lock_run false (trace s') = Some false).
Proof.
  intros Hfree. split; [|split].
  - intros fd dst n r s' Hr. apply randomread_returns in Hr.
    destruct Hr as (sts & _ & _ & _ & -> & _).
    rewrite lock_run_app, Hfree. simpl.
    rewrite lock_run_app, lock_run_copyout_events. reflexivity.
  - intros fd src n r s' Hr. unfold randomwrite in Hr.
    destruct (decide (n <> 1)) as [Hn|Hn].
    + injection Hr as <- <-. exact Hfree.
    + unfold mbind, kbind, acquire, release, log, copyin_seed in Hr.
      cbn [rand_seed world devsw trace] in Hr.
      destruct (either_copyin (to_int src) src (world s)) as [[st stored]|];
        [|discriminate].
      injection Hr as <- <-. cbn [trace].
      rewrite <- !app_assoc, lock_run_app, Hfree. reflexivity.
  - intros s' Hr.
    unfold randominit, mbind, kbind, initlock, log, set_devsw_read, set_devsw_write in Hr.
    cbn [rand_seed world devsw trace] in Hr.
    destruct (devsw s !! RANDOM) as [e|]; [|discriminate].
    cbn [rand_seed world devsw trace] in Hr.
    destruct (_ !! RANDOM) as [e'|] in Hr; [|discriminate].
    injection Hr as <-. cbn [trace].
    rewrite lock_run_app, Hfree. reflexivity.
Qed.

End DriverSequences.

(** ** Further properties on the copy primitives of the kernel *)

Section Xv6Memory.

Implicit Types (m : Xv6.memory) (s : kstate Xv6.memory).

Lemma to_int_zero_iff z : to_int z = 0 <-> z mod 2 ^ 32 = 0.
Proof.
  unfold to_int. split; intros H.
  - assert (Hm : (z + 2 ^ 31) mod 2 ^ 32 = 2 ^ 31) by lia.
    pose proof (Z.div_mod (z + 2 ^ 31) (2 ^ 32) ltac:(lia)) as Hd.
    rewrite Hm in Hd.
    replace z with ((z + 2 ^ 31) / 2 ^ 32 * 2 ^ 32) by lia.
    apply Z_mod_mult.
  - pose proof (Z.div_mod z (2 ^ 32) ltac:(lia)) as Hd. rewrite H in Hd.
    replace (z + 2 ^ 31) with (2 ^ 31 + z / 2 ^ 32 * 2 ^ 32) by lia.
    rewrite Z_mod_plus_full. reflexivity.
Qed.

(** X13. What [randomwrite] does with length 1 on these primitives, in
    full: the first argument plays no part, and the 32 low bits of [src]
    decide where the byte is looked for. When they are not all zero, the
    byte of user address [src] becomes the seed and 0 is returned, or [-1]
    is returned and the seed is kept when that address is not mapped; when
    they are all zero, kernel address [src] is read instead. *)
Theorem xv6_randomwrite_cases fd src s :
  randomwrite fd src 1 s
  = if decide (src mod 2 ^ 32 = 0) then
      match Xv6.kern (world s) !! src with
      | Some b =>
          Some (0, mk_kstate (to_uint8 b) (devsw s) (world s)
                     (trace s ++ [EvAcquire; EvCopyin 0 src 0; EvRelease]))
      | None => None
      end
    else
      match Xv6.user (world s) !! src with
      | Some b =>
          Some (0, mk_kstate (to_uint8 b) (devsw s) (world s)
                     (trace s ++ [EvAcquire; EvCopyin (to_int src) src 0; EvRelease]))
      | None =>
          Some (-1, mk_kstate (rand_seed s) (devsw s) (world s)
                      (trace s ++ [EvAcquire; EvCopyin (to_int src) src (-1); EvRelease]))
      end.
Proof.
  destruct (decide (src mod 2 ^ 32 = 0)) as [Hz|Hnz].
  - apply to_int_zero_iff in Hz.
    destruct (Xv6.kern (world s) !! src) as [b|] eqn:Hk.
    + rewrite <- Hz at 2.
      apply (randomwrite_copy_status fd src s 0 (Some b)).
      cbn [either_copyin Xv6.kernel]. unfold Xv6.copyin. rewrite Hz.
      destruct (decide (0 <> 0)) as [|_]; [contradiction|].
      rewrite Hk. reflexivity.
    + unfold randomwrite. destruct (decide (1 <> 1)) as [|_]; [contradiction|].
      unfold mbind, kbind, acquire, log, copyin_seed.
      cbn [world either_copyin Xv6.kernel]. unfold Xv6.copyin. rewrite Hz.
      destruct (decide (0 <> 0)) as [|_]; [contradiction|].
      rewrite Hk. reflexivity.
  - assert (Hf : to_int src <> 0) by (rewrite to_int_zero_iff; exact Hnz).
    destruct (Xv6.user (world s) !! src) as [b|] eqn:Hu.
    + apply xv6_randomwrite_mapped; assumption.
    + apply (randomwrite_copy_status fd src s (-1) None).
      cbn [either_copyin Xv6.kernel]. unfold Xv6.copyin.
      destruct (decide (to_int src <> 0)); [|contradiction].
      rewrite Hu. reflexivity.
Qed.




End Xv6Memory.

(** ** The further properties on concrete calls *)

Lemma randomread_emits_stream_witness :
  exists r s',
    randomread 1 4096 3 (Xv6.seeded 42 (Xv6.user_zeros 4096 2)) = Some (r, s') /\
    exists sts : list Z,
      (length sts <= read_len 3)%nat /\
      rand_seed s' = lfsr_iter (length sts) 42.
Proof.
  destruct (randomread 1 4096 3 (Xv6.seeded 42 (Xv6.user_zeros 4096 2)))
    as [[r s']|] eqn:E.
  - exists r, s'. split; [reflexivity|].
    destruct (randomread_emits_stream 1 4096 3 _ r s' E)
      as (sts & Hl & _ & Hs & _).
    exists sts. split; [exact Hl | exact Hs].
  - vm_compute in E. discriminate.
Defined.

Lemma randomread_count_witness :
  exists r s',
    randomread 1 4098 5 (Xv6.seeded 42 (Xv6.user_zeros 4096 2)) = Some (r, s') /\
    0 <= r <= Z.of_nat (read_len 5).
Proof.
  destruct (randomread 1 4098 5 (Xv6.seeded 42 (Xv6.user_zeros 4096 2)))
    as [[r s']|] eqn:E.
  - exists r, s'. split; [reflexivity|].
    exact (proj1 (randomread_count 1 4098 5 _ r s' E)).
  - vm_compute in E. discriminate.
Defined.

Lemma randomread_full_witness :
  copyout_each 1 4096 (lfsr_stream (read_len 3) 42) (Xv6.user_zeros 4096 2)
  = Some ([0; 0; 0],
          Xv6.mk_memory (<[4096 := 229]> (Xv6.user (Xv6.user_zeros 4096 2))) ∅) /\
  exists s',
    randomread 1 4096 3 (Xv6.seeded 42 (Xv6.user_zeros 4096 2)) = Some (3, s') /\
    rand_seed s' = 229.
Proof.
  assert (Hc : copyout_each 1 4096 (lfsr_stream (read_len 3) 42) (Xv6.user_zeros 4096 2)
               = Some ([0; 0; 0],
                       Xv6.mk_memory (<[4096 := 229]> (Xv6.user (Xv6.user_zeros 4096 2))) ∅))
    by (vm_compute; reflexivity).
  split; [exact Hc|].
  eexists. split.
  - apply (randomread_full 1 4096 3 (Xv6.seeded 42 (Xv6.user_zeros 4096 2)) _ _ Hc).
    repeat constructor; discriminate.
  - reflexivity.
Defined.

Lemma randomread_first_copy_fails_witness :
  1 <= 5 /\
  either_copyout 1 4098 (lfsr_char 42) (Xv6.user_zeros 4096 2)
  = Some (-1, Xv6.user_zeros 4096 2) /\
  exists s',
    randomread 1 4098 5 (Xv6.seeded 42 (Xv6.user_zeros 4096 2)) = Some (0, s') /\
    rand_seed s' = 149.
Proof.
  assert (Hc : either_copyout 1 4098 (lfsr_char 42) (Xv6.user_zeros 4096 2)
               = Some (-1, Xv6.user_zeros 4096 2)) by reflexivity.
  split; [lia|]. split; [exact Hc|].
  eexists. split.
  - apply (randomread_first_copy_fails 1 4098 5
             (Xv6.seeded 42 (Xv6.user_zeros 4096 2)) _ ltac:(lia) Hc).
  - reflexivity.
Defined.


Lemma randomwrite_then_randomread_witness :
  is_uint8 85 /\
  exists s1 s2,
    randomwrite 1 4096 1 (Xv6.seeded 42 (Xv6.user_byte 4096 85)) = Some (0, s1) /\
    rand_seed s1 = 85 /\
    randomread 1 4096 1 s1 = Some (1, s2) /\
    rand_seed s2 = lfsr_char 85.
Proof.
  assert (Hb : is_uint8 85) by (unfold is_uint8; lia).
  split; [exact Hb|].
  destruct (randomwrite_then_randomread 1 4096 1 4096 1
              (Xv6.seeded 42 (Xv6.user_byte 4096 85)) 0 85 [0]
              (Xv6.mk_memory {[ 4096 := lfsr_char 85 ]} ∅) Hb)
    as (s1 & s2 & Hw & Hs1 & Hr & Hs2 & _).
  - reflexivity.
  - vm_compute. reflexivity.
  - repeat constructor; discriminate.
  - exists s1, s2. split; [exact Hw|]. split; [exact Hs1|].
    split; [exact Hr | exact Hs2].
Defined.

Lemma randominit_then_randomread_witness :
  (RANDOM < length (devsw (Xv6.boot (Xv6.user_zeros 4096 1))))%nat /\
  12 >= 8 /\
  exists s1 s2,
    randominit (Xv6.boot (Xv6.user_zeros 4096 1)) = Some (tt, s1) /\
    randomread 1 4096 12 s1 = Some (8, s2) /\
    rand_seed s2 = 119.
Proof.
  assert (Hr : (RANDOM < length (devsw (Xv6.boot (Xv6.user_zeros 4096 1))))%nat)
    by (simpl; lia).
  split; [exact Hr|]. split; [lia|].
  destruct (randominit_then_randomread 1 4096 12 (Xv6.boot (Xv6.user_zeros 4096 1))
              [0; 0; 0; 0; 0; 0; 0; 0]
              (Xv6.mk_memory {[ 4096 := 119 ]} ∅) Hr)
    as (s1 & s2 & Hi & Hrd & Hs & _).
  - lia.
  - vm_compute. reflexivity.
  - repeat constructor; discriminate.
  - exists s1, s2. split; [exact Hi|]. split; [exact Hrd | exact Hs].
Defined.

Lemma lock_discipline_witness :
  lock_run false (trace (Xv6.seeded 42 (Xv6.user_zeros 4096 2))) = Some false /\
  forall fd dst n r s',
    randomread fd dst n (Xv6.seeded 42 (Xv6.user_zeros 4096 2)) = Some (r, s') ->
    lock_run false (trace s') = Some false.
Proof.
  assert (H : lock_run false (trace (Xv6.seeded 42 (Xv6.user_zeros 4096 2))) = Some false)
    by reflexivity.
  split; [exact H|].
  exact (proj1 (lock_discipline (Xv6.seeded 42 (Xv6.user_zeros 4096 2)) H)).
Defined.

